(** * The transit backend's cache configuration: startup restore,
      the [cache-config] path and the invalidation callback

    Shallow embedding of [builtin/logical/transit/backend.go] and
    [builtin/logical/transit/path_cache_config.go].  Go packages become
    modules: [strings], [logical], [framework], [keysutil], [transit].
    A Go method with a pointer receiver becomes a function that takes the
    receiver first and gives the updated receiver back; a Go result pair
    [(x, err)] becomes a pair whose second component is [option error]
    ([None] is Go's [nil]).  Go's [int] is embedded as [Z]: the code only
    compares these integers and copies them around, no arithmetic is done
    on them. *)

From Stdlib Require Import ZArith String Ascii List Bool Lia.
From stdpp Require Import base option gmap strings.
Import ListNotations.

Local Open Scope string_scope.
Local Open Scope Z_scope.

(** ** Package [strings] (Go standard library) *)

Module strings.

(** [HasPrefix] tests whether the string [s] begins with [prefix]:
    [len(s) >= len(prefix) && s[0:len(prefix)] == prefix]. *)
Definition HasPrefix (s prefix : string) : bool :=
  (String.length prefix <=? String.length s)%nat
  && String.eqb (substring 0 (String.length prefix) s) prefix.

(** [TrimPrefix] returns [s] without the provided leading [prefix]; if [s]
    does not start with [prefix], [s] is returned unchanged. *)
Definition TrimPrefix (s prefix : string) : string :=
  if HasPrefix s prefix
  then substring (String.length prefix)
                 (String.length s - String.length prefix) s
  else s.

End strings.

(** ** Package [logical]: errors, responses and the storage interface *)

Module logical.

(** Go's [error] values that this code creates or passes on.
    [ErrInvalidRequest] is the sentinel of package [logical];
    [errors_New] stands for an error made elsewhere (storage, JSON, cache
    construction); [errwrap_Wrapf] is [errwrap.Wrapf format inner]. *)
Inductive error : Type :=
| ErrInvalidRequest
| errors_New (msg : string)
| errwrap_Wrapf (format : string) (inner : error).

(** The values of [map[string]interface{}] that occur in this code. *)
Inductive iface : Type :=
| VString (s : string)
| VInt (n : Z).

(** [logical.Response]; only the [Data] map is used here. *)
Record Response : Type := { Data : gmap string iface }.

(** [logical.ErrorResponse text]: a response whose data carries the text
    under the key [error]. *)
Definition ErrorResponse (text : string) : Response :=
  {| Data := {[ "error" := VString text ]} |}.

(** The content of a storage entry: a JSON object with scalar members (all
    that this code stores or reads), or bytes that are not a JSON
    document. *)
Inductive JSONScalar : Type :=
| JInt (n : Z)
| JString (s : string).

Inductive JSON : Type :=
| JObject (fields : list (string * JSONScalar))
| JMalformed.

Record StorageEntry : Type := { Key : string; Value : JSON }.

(** [logical.Storage] is an interface of get and put by key.  The model is
    a finite map with two fault oracles: [getErr k] and [putErr k] are the
    errors the backing store raises on that key, if any.  [putLog] records
    every [Put] that was issued, in order. *)
Record Storage : Type := {
  data : gmap string JSON;
  getErr : string -> option error;
  putErr : string -> option error;
  putLog : list StorageEntry
}.

Definition Get (s : Storage) (key : string)
  : option StorageEntry * option error :=
  match getErr s key with
  | Some err => (None, Some err)
  | None =>
      match data s !! key with
      | Some v => (Some {| Key := key; Value := v |}, None)
      | None => (None, None)
      end
  end.

Definition Put (s : Storage) (entry : StorageEntry)
  : Storage * option error :=
  match putErr s (Key entry) with
  | Some err =>
      ({| data := data s; getErr := getErr s; putErr := putErr s;
          putLog := putLog s ++ [entry] |}, Some err)
  | None =>
      ({| data := <[ Key entry := Value entry ]> (data s);
          getErr := getErr s; putErr := putErr s;
          putLog := putLog s ++ [entry] |}, None)
  end.

(** [logical.Request]; the handlers only use its storage. *)
Record Request : Type := { ReqStorage : Storage }.

End logical.

(** ** Package [framework]: the parsed request fields *)

Module framework.
Import logical.

(** [framework.FieldData]: the raw fields of a request, already checked
    against the path's schema by the routing layer. *)
Record FieldData : Type := { Raw : gmap string iface }.

(** [d.Get(k).(string)] for a field of schema type [TypeString]: the value
    sent, or the type's default (the empty string) when the field is
    absent. *)
Definition Get_string (d : FieldData) (k : string) : string :=
  match Raw d !! k with
  | Some (VString s) => s
  | _ => ""
  end.

(** [d.Get(k).(int)] for a field of schema type [TypeInt]: the value sent,
    or the default [0] when the field is absent. *)
Definition Get_int (d : FieldData) (k : string) : Z :=
  match Raw d !! k with
  | Some (VInt n) => n
  | _ => 0
  end.

End framework.

(** ** Package [keysutil]: the lock manager as the backend sees it *)

Module keysutil.
Import logical.

Inductive CacheType : Type := SyncMap | LRU | NotImplemented.

Definition CacheType_eqb (x y : CacheType) : bool :=
  match x, y with
  | SyncMap, SyncMap | LRU, LRU | NotImplemented, NotImplemented => true
  | _, _ => false
  end.

Arguments CacheType_eqb !x !y / : simpl nomatch.

(** Modelled from the spec: the numbering of [CacheType], whose declaration
    is not among the sources; the persisted enum is Unbounded, LRU,
    NotImplemented in this order. *)
Definition CacheType_to_int (t : CacheType) : Z :=
  match t with SyncMap => 0 | LRU => 1 | NotImplemented => 2 end.

(** The methods of [*keysutil.LockManager] that the transit backend calls.
    The lock manager's code is not among the sources, so the backend is
    embedded over this interface. *)
Class LockManager (LM : Type) : Type := {
  GetCacheType : LM -> CacheType;
  GetCacheSize : LM -> Z;
  ConvertCacheToSyncmap : LM -> LM;
  ConvertCacheToLRU : LM -> Z -> LM * option error;
  InvalidatePolicy : LM -> string -> LM
}.

(** The lock manager's contract in the specification, as predicates on an
    implementation of the interface. *)
Section Contract.
Context {LM : Type} `{!LockManager LM}.

(** Modelled from the spec: the invariant of a cache configuration; an LRU
    has a positive capacity, the unbounded strategy reports capacity 0, and
    there is no third strategy. *)
Definition CacheConfigInvariant (m : LM) : Prop :=
  (GetCacheType m = SyncMap /\ GetCacheSize m = 0)
  \/ (GetCacheType m = LRU /\ 0 < GetCacheSize m).

(** Modelled from the spec: a conversion that fails leaves the manager in
    its prior state. *)
Definition FailedConversionKeepsState : Prop :=
  forall (m m' : LM) (size : Z) (err : error),
    ConvertCacheToLRU m size = (m', Some err) -> m' = m.

(** Modelled from the spec: [ConvertCacheToLRU] fails only on a capacity
    that is not positive, and otherwise leaves an LRU of the given
    capacity as the live configuration. *)
Definition PositiveCapacityConverts : Prop :=
  forall (m : LM) (size : Z), 0 < size ->
    exists m', ConvertCacheToLRU m size = (m', None)
               /\ GetCacheType m' = LRU /\ GetCacheSize m' = size.

End Contract.

Arguments FailedConversionKeepsState LM {_}.
Arguments PositiveCapacityConverts LM {_}.

(** The state-changing calls a backend makes on its lock manager; the
    backend keeps them in a ghost log (a conversion and invalidation
    probe). *)
Inductive Call : Type :=
| CallConvertCacheToSyncmap
| CallConvertCacheToLRU (size : Z)
| CallInvalidatePolicy (name : string).

(** *** A lock manager after the specification *)

Section Manager.
Variable Policy : Type.

(** Modelled from the spec: the cache strategy, a variant that is either
    unbounded or an LRU of a fixed capacity, over entries from key name to
    policy (most recently used first). *)
Inductive CacheStrategy : Type :=
| Unbounded (entries : list (string * Policy))
| BoundedLRU (capacity : Z) (entries : list (string * Policy)).

(** Modelled from the spec: the lock manager owns the active strategy. *)
Record Manager : Type := { cache : CacheStrategy }.

(** Modelled from the spec: [Capacity()] is 0 for the unbounded strategy. *)
Definition Capacity (c : CacheStrategy) : Z :=
  match c with
  | Unbounded _ => 0
  | BoundedLRU capacity _ => capacity
  end.

Definition evict (name : string) (es : list (string * Policy))
  : list (string * Policy) :=
  List.filter (fun e => negb (String.eqb (fst e) name)) es.

(** Modelled from the spec: [GetCacheType] and [GetCacheSize] read the
    current configuration. *)
Definition Manager_GetCacheType (m : Manager) : CacheType :=
  match cache m with
  | Unbounded _ => SyncMap
  | BoundedLRU _ _ => LRU
  end.

Definition Manager_GetCacheSize (m : Manager) : Z := Capacity (cache m).

(** Modelled from the spec: [ConvertCacheToSyncmap] replaces the active
    strategy with a fresh unbounded one; no-op if already unbounded. *)
Definition Manager_ConvertCacheToSyncmap (m : Manager) : Manager :=
  match cache m with
  | Unbounded _ => m
  | BoundedLRU _ _ => {| cache := Unbounded [] |}
  end.

(** Modelled from the spec: [ConvertCacheToLRU] validates [capacity > 0]
    (else it fails and the manager stays as it was) and replaces the
    active strategy with a fresh LRU of that capacity; no-op if already an
    LRU of the same capacity. *)
Definition Manager_ConvertCacheToLRU (m : Manager) (size : Z)
  : Manager * option error :=
  if size <=? 0 then (m, Some (errors_New "InvalidConfiguration"))
  else
    match cache m with
    | BoundedLRU capacity _ =>
        if capacity =? size then (m, None)
        else ({| cache := BoundedLRU size [] |}, None)
    | Unbounded _ => ({| cache := BoundedLRU size [] |}, None)
    end.

(** Modelled from the spec: [InvalidatePolicy] evicts the entry of that
    name from the active strategy and does not touch storage. *)
Definition Manager_InvalidatePolicy (m : Manager) (name : string) : Manager :=
  match cache m with
  | Unbounded es => {| cache := Unbounded (evict name es) |}
  | BoundedLRU capacity es => {| cache := BoundedLRU capacity (evict name es) |}
  end.

(** Modelled from the spec: a bounded LRU is only ever constructed with a
    positive capacity. *)
Definition Manager_wf (m : Manager) : Prop :=
  match cache m with
  | Unbounded _ => True
  | BoundedLRU capacity _ => 0 < capacity
  end.

#[export] Instance Manager_LockManager : LockManager Manager := {
  GetCacheType := Manager_GetCacheType;
  GetCacheSize := Manager_GetCacheSize;
  ConvertCacheToSyncmap := Manager_ConvertCacheToSyncmap;
  ConvertCacheToLRU := Manager_ConvertCacheToLRU;
  InvalidatePolicy := Manager_InvalidatePolicy
}.

End Manager.

Arguments Unbounded {Policy} entries.
Arguments BoundedLRU {Policy} capacity entries.
Arguments cache {Policy} m.
Arguments Manager_wf {Policy} m.

(** *** A lock manager whose cache cannot be resized

    A second implementation of the interface, used to exercise the error
    path of a conversion: it serves one fixed configuration and refuses
    every conversion to an LRU, staying as it is. *)
Record Pinned : Type := { pinnedType : CacheType; pinnedSize : Z }.

#[export] Instance Pinned_LockManager : LockManager Pinned := {
  GetCacheType := pinnedType;
  GetCacheSize := pinnedSize;
  ConvertCacheToSyncmap := fun m => m;
  ConvertCacheToLRU := fun m _ => (m, Some (errors_New "cache is pinned"));
  InvalidatePolicy := fun m _ => m
}.

End keysutil.

(** ** Package [transit] *)

Module transit.
Import logical framework keysutil.

(** [hclog.Logger] as the backend uses it: a debug switch and the lines
    written so far (message, then key and value pairs). *)
Record Logger : Type := {
  IsDebug : bool;
  lines : list (string * list (string * string))
}.

Definition Debug (l : Logger) (msg : string) (args : list (string * string))
  : Logger :=
  {| IsDebug := IsDebug l; lines := lines l ++ [(msg, args)] |}.

(** [configCacheType], the record persisted by the write handler. *)
Record configCacheType : Type := {
  cct_CacheType : CacheType;
  cct_Size : Z
}.

(** Modelled from the spec: [configCacheSize], which [initializeCache]
    decodes and whose declaration is not among the sources; the legacy
    record holds one integer, [Size]. *)
Record configCacheSize : Type := { ccs_Size : Z }.

(** [logical.StorageEntryJSON] at a [configCacheType]: the JSON object of
    the struct, with the member names of its [json] tags.  Encoding two
    integers cannot fail, the error is always [nil]. *)
Definition StorageEntryJSON (k : string) (v : configCacheType)
  : StorageEntry * option error :=
  ({| Key := k;
      Value := JObject [("cacheType", JInt (CacheType_to_int (cct_CacheType v)));
                        ("size", JInt (cct_Size v))] |}, None).

Fixpoint member (name : string) (fields : list (string * JSONScalar))
  : option JSONScalar :=
  match fields with
  | [] => None
  | (k, v) :: rest => if String.eqb k name then Some v else member name rest
  end.

(** Modelled from the spec: [entry.DecodeJSON] at a [configCacheSize].
    The legacy record is an object with an integer member [Size]; a member
    that is absent leaves Go's zero value; bytes that are not a JSON
    object, or a [Size] that is not an integer, are a decoding error. *)
Definition DecodeJSON (entry : StorageEntry) : configCacheSize * option error :=
  match Value entry with
  | JObject fields =>
      match member "Size" fields with
      | None => ({| ccs_Size := 0 |}, None)
      | Some (JInt n) => ({| ccs_Size := n |}, None)
      | Some (JString _) =>
          ({| ccs_Size := 0 |}, Some (errors_New "json: cannot unmarshal string into int"))
      end
  | JMalformed => ({| ccs_Size := 0 |}, Some (errors_New "json: invalid document"))
  end.

Section Backend.
Context {LM : Type} `{!LockManager LM}.

(** The [%q] verb of [fmt.Sprintf] (a Go-syntax quoted string); the
    formatting library is outside this code. *)
Variable fmt_q : string -> string.

(** [backend]: the lock manager [lm], the logger of the embedded
    [framework.Backend], and the ghost log of the state-changing calls made
    on [lm]. *)
Record backend : Type := {
  lm : LM;
  logger : Logger;
  lmCalls : list Call
}.

(** [b.lm.ConvertCacheToSyncmap()] *)
Definition lm_ConvertCacheToSyncmap (b : backend) : backend :=
  {| lm := ConvertCacheToSyncmap (lm b);
     logger := logger b;
     lmCalls := lmCalls b ++ [CallConvertCacheToSyncmap] |}.

(** [b.lm.ConvertCacheToLRU(size)] *)
Definition lm_ConvertCacheToLRU (b : backend) (size : Z)
  : backend * option error :=
  let '(m, err) := ConvertCacheToLRU (lm b) size in
  ({| lm := m;
      logger := logger b;
      lmCalls := lmCalls b ++ [CallConvertCacheToLRU size] |}, err).

(** [b.lm.InvalidatePolicy(name)] *)
Definition lm_InvalidatePolicy (b : backend) (name : string) : backend :=
  {| lm := InvalidatePolicy (lm b) name;
     logger := logger b;
     lmCalls := lmCalls b ++ [CallInvalidatePolicy name] |}.

(** [initializeCache] initializes a transit's cache. *)
Definition initializeCache (b : backend) (s : Storage)
  : backend * option error :=
  (* create the appropriate cache *)
  let create (targetSize : Z) :=
    if targetSize =? 0
    then (lm_ConvertCacheToSyncmap b, None)
    else lm_ConvertCacheToLRU b targetSize in
  (* default to an unlimited cache size *)
  let targetSize := 0 in
  (* override default size with a stored size value if one is available;
     the error result of [s.Get] is assigned to the blank identifier *)
  let '(entry, _) := Get s "config/cache-size" in
  match entry with
  | Some entry =>
      let '(storedCacheSize, err) := DecodeJSON entry in
      match err with
      | Some err => (b, Some err)
      | None => create (ccs_Size storedCacheSize)
      end
  | None => create targetSize
  end.

(** [invalidate], the callback the framework calls with a storage key. *)
Definition invalidate (b : backend) (key : string) : backend :=
  let b :=
    if IsDebug (logger b)
    then {| lm := lm b;
            logger := Debug (logger b) "invalidating key" [("key", key)];
            lmCalls := lmCalls b |}
    else b in
  if strings.HasPrefix key "policy/"
  then
    let name := strings.TrimPrefix key "policy/" in
    lm_InvalidatePolicy b name
  else b.

(** The [switch cacheTypeStr] of [pathCacheConfigWrite]. *)
Definition cacheTypeOf (cacheTypeStr : string) : CacheType :=
  if String.eqb cacheTypeStr "unlimited" then SyncMap
  else if String.eqb cacheTypeStr "lru" then LRU
  else NotImplemented.

Definition pathCacheConfigWrite (b : backend) (req : Request) (d : FieldData)
  : backend * Request * (option Response * option error) :=
  (* get target cacheType *)
  let cacheTypeStr := Get_string d "cache-type" in
  let cacheSize := Get_int d "cache-size" in
  let cacheType := cacheTypeOf cacheTypeStr in
  (* err if the requested cacheType has not been implemented *)
  if CacheType_eqb cacheType NotImplemented
  then (b, req,
        (Some (ErrorResponse ("unknown cache-type " +:+ fmt_q cacheTypeStr)),
         Some ErrInvalidRequest))
  (* err if cacheType is lru but no cache-size was specified *)
  else if CacheType_eqb cacheType LRU && (cacheSize <=? 0)
  then (b, req,
        (Some (ErrorResponse
           "for lru cache-type, cache-size must be specified and be greater than zero"),
         Some ErrInvalidRequest))
  (* convert the cache if the specified type and size are different from
     the current cache type and size *)
  else if CacheType_eqb cacheType (GetCacheType (lm b))
          && (cacheSize =? GetCacheSize (lm b))
  then (b, req, (None, None))
  else
    let b :=
      if CacheType_eqb cacheType SyncMap then lm_ConvertCacheToSyncmap b else b in
    let '(b, err) :=
      if CacheType_eqb cacheType LRU
      then lm_ConvertCacheToLRU b cacheSize
      else (b, None) in
    match err with
    | Some err =>
        (b, req,
         (None, Some (errwrap_Wrapf "failed to convert cache-type to lru: {{err}}" err)))
    | None =>
        (* store cache type *)
        let '(entry, err) :=
          StorageEntryJSON "config/cache-type"
            {| cct_CacheType := cacheType; cct_Size := cacheSize |} in
        match err with
        | Some err => (b, req, (None, Some err))
        | None =>
            let '(s, err) := Put (ReqStorage req) entry in
            match err with
            | Some err => (b, {| ReqStorage := s |}, (None, Some err))
            | None => (b, {| ReqStorage := s |}, (None, None))
            end
        end
    end.

Definition pathCacheConfigRead (b : backend) (req : Request) (d : FieldData)
  : backend * Request * (option Response * option error) :=
  let cacheType :=
    match GetCacheType (lm b) with
    | SyncMap => "unlimited"
    | LRU => "lru"
    | _ => "unknown"
    end in
  let resp :=
    {| Data := <[ "cache_type" := VString cacheType ]>
               (<[ "cache_max_size" := VInt (GetCacheSize (lm b)) ]> ∅) |} in
  (b, req, (Some resp, None)).

End Backend.

Arguments backend LM : clear implicits.

(** [logical.BackendConfig], the fields that [Backend] and [Factory] read:
    the storage view and [System.CachingDisabled()]. *)
Record BackendConfig : Type := {
  StorageView : Storage;
  CachingDisabled : bool
}.

Section Startup.
Context {LM : Type} `{!LockManager LM}.

(** [keysutil.NewLockManager] and the [Setup] method of the embedded
    [framework.Backend]; neither is among the sources.  [Setup] is a method
    of the embedded struct: it acts on the framework's part of the backend
    (here its logger) and cannot reach [lm]. *)
Variable NewLockManager : bool -> LM.
Variable Setup : Logger -> BackendConfig -> Logger * option error.

(** [Backend] builds the backend value: the framework part (paths,
    invalidation callback, type; its logger is not set yet and discards)
    and a new lock manager. *)
Definition Backend (conf : BackendConfig) : backend LM :=
  {| lm := NewLockManager (CachingDisabled conf);
     logger := {| IsDebug := false; lines := [] |};
     lmCalls := [] |}.

(** [Factory]: the backend is built and set up, then its cache is
    initialized from the storage view.  A failed [Setup] returns no
    backend; a failed [initializeCache] returns the backend and the
    error. *)
Definition Factory (conf : BackendConfig)
  : option (backend LM) * option error :=
  let b := Backend conf in
  let '(l, err) := Setup (logger b) conf in
  let b := {| lm := lm b; logger := l; lmCalls := lmCalls b |} in
  match err with
  | Some err => (None, Some err)
  | None =>
      let '(b, err) := initializeCache b (StorageView conf) in
      match err with
      | Some err => (Some b, Some err)
      | None => (Some b, None)
      end
  end.

End Startup.

End transit.

(** ** [ui/app/utils/openapi-to-attrs.js]: merging field lists

    JavaScript arrays of field names are lists of strings; an object used
    as a record of named field lists is an association list in the order
    in which [Object.keys] enumerates it. *)

Module openapi_to_attrs.

(** [a.includes(x)] on an array of strings. *)
Definition includes (a : list string) (x : string) : bool :=
  existsb (String.eqb x) a.

(** The callback of both [filter] calls: the field is neither among the
    fields already there nor excluded. *)
Definition isOther (present excludedFields : list string) (field : string)
  : bool :=
  negb (includes present field) && negb (includes excludedFields field).

Definition combineFields (currentFields newFields excludedFields : list string)
  : list string :=
  let otherFields := List.filter (isOther currentFields excludedFields) newFields in
  (* [otherFields.length] is truthy when it is not 0 *)
  if negb (length otherFields =? 0)%nat
  then (currentFields ++ otherFields)%list
  else currentFields.

(** A field group: an object whose keys name lists of fields. *)
Abbreviation Group := (list (string * list string)).

(** [group[Object.keys(group)[0]]]; for an object without keys this is
    [undefined], which [concat] appends as one element that no field name
    equals: as far as [includes] on field names goes, nothing is added. *)
Definition firstKeyFields (group : Group) : list string :=
  match group with
  | [] => []
  | (_, fields) :: _ => fields
  end.

(** The loop over [currentGroups] that collects [allFields]. *)
Definition collectFields (currentGroups : list Group) : list string :=
  fold_left (fun allFields group => (allFields ++ firstKeyFields group)%list)
            currentGroups [].

(** [group[key]], [undefined] as [None]. *)
Fixpoint getProperty (group : Group) (key : string) : option (list string) :=
  match group with
  | [] => None
  | (k, v) :: rest => if String.eqb k key then Some v else getProperty rest key
  end.

(** [group[key] = value] on a key the object has: the key keeps its
    place. *)
Fixpoint setProperty (group : Group) (key : string) (value : list string)
  : Group :=
  match group with
  | [] => [(key, value)]
  | (k, v) :: rest =>
      if String.eqb k key then (k, value) :: rest
      else (k, v) :: setProperty rest key value
  end.

(** Reading a property of [undefined] throws. *)
Inductive TypeError : Type :=
| undefined_has_no_properties (property : string).

(** [combineFieldGroups] updates the [default] list of the first group in
    place and returns [currentGroups]; the result is the array after the
    update, or the [TypeError] thrown when there is no first group
    ([currentGroups[0]] is [undefined]) or it has no [default]
    ([undefined.concat]). *)
Definition combineFieldGroups (currentGroups : list Group)
    (newFields excludedFields : list string) : list Group + TypeError :=
  let allFields := collectFields currentGroups in
  let otherFields := List.filter (isOther allFields excludedFields) newFields in
  if negb (length otherFields =? 0)%nat
  then
    match currentGroups with
    | [] => inr (undefined_has_no_properties "default")
    | first :: rest =>
        match getProperty first "default" with
        | None => inr (undefined_has_no_properties "concat")
        | Some fields =>
            inl (setProperty first "default" (fields ++ otherFields)%list :: rest)
        end
    end
  else inl currentGroups.

End openapi_to_attrs.

(** ** Sample states and requests *)

Module samples.
Import logical framework keysutil transit.

(** Go's quoting of a string of printable ASCII without quotes or
    backslashes: the string between two double quotes. *)
Definition quote (s : string) : string :=
  String "034"%char (s +:+ String "034"%char "").

Definition quietLogger : Logger := {| IsDebug := false; lines := [] |}.
Definition debugLogger : Logger := {| IsDebug := true; lines := [] |}.

(** A backend on the specification's lock manager, with an unbounded cache
    that holds one policy. *)
Definition unlimitedBackend : backend (Manager string) :=
  {| lm := {| cache := Unbounded [("my-key", "policy v1")] |};
     logger := debugLogger;
     lmCalls := [] |}.

(** The same with an LRU cache of the given capacity. *)
Definition lruBackend (capacity : Z) : backend (Manager string) :=
  {| lm := {| cache := BoundedLRU capacity [("my-key", "policy v1")] |};
     logger := quietLogger;
     lmCalls := [] |}.

(** A backend whose lock manager refuses conversions. *)
Definition pinnedBackend : backend Pinned :=
  {| lm := {| pinnedType := SyncMap; pinnedSize := 0 |};
     logger := quietLogger;
     lmCalls := [] |}.

(** A storage without faults that holds the given records. *)
Definition storageOf (records : gmap string JSON) : Storage :=
  {| data := records;
     getErr := fun _ => None;
     putErr := fun _ => None;
     putLog := [] |}.

(** A storage on which every read fails with [err]. *)
Definition unreadableStorage (records : gmap string JSON) (err : error)
  : Storage :=
  {| data := records;
     getErr := fun _ => Some err;
     putErr := fun _ => None;
     putLog := [] |}.

(** The primary record as the write handler persists it. *)
Definition cacheTypeRecord (t : CacheType) (size : Z) : JSON :=
  Value (fst (StorageEntryJSON "config/cache-type"
                {| cct_CacheType := t; cct_Size := size |})).

(** The legacy record. *)
Definition cacheSizeRecord (size : Z) : JSON :=
  JObject [("Size", JInt size)].

(** A write request with both fields, and one with the type only. *)
Definition writeRequest (cacheType : string) (cacheSize : Z) : FieldData :=
  {| Raw := <[ "cache-type" := VString cacheType ]>
            (<[ "cache-size" := VInt cacheSize ]> ∅) |}.

Definition writeRequestNoSize (cacheType : string) : FieldData :=
  {| Raw := {[ "cache-type" := VString cacheType ]} |}.

Definition emptyRequest : Request := {| ReqStorage := storageOf ∅ |}.

End samples.

(** ** More sample states: storages, a backend configuration, field groups *)

Module more_samples.
Import logical framework keysutil transit.

(** A storage that holds the legacy record of the given size. *)
Definition legacyStorage (size : Z) : Storage :=
  samples.storageOf {[ "config/cache-size" := samples.cacheSizeRecord size ]}.

(** The same with the primary record of an unbounded cache beside it. *)
Definition bothRecordsStorage (size : Z) : Storage :=
  samples.storageOf
    (<[ "config/cache-type" := samples.cacheTypeRecord SyncMap 0 ]>
       {[ "config/cache-size" := samples.cacheSizeRecord size ]}).

(** A storage whose legacy record is not a JSON document. *)
Definition garbledStorage : Storage :=
  samples.storageOf {[ "config/cache-size" := JMalformed ]}.

(** A request on a storage that refuses every write with [err]. *)
Definition readOnlyRequest (err : error) : Request :=
  {| ReqStorage :=
       {| data := ∅;
          getErr := fun _ => None;
          putErr := fun _ => Some err;
          putLog := [] |} |}.

(** A lock manager constructor and a [Setup] that installs a debug logger
    and succeeds. *)
Definition newManager (cachingDisabled : bool) : Manager string :=
  {| cache := Unbounded [] |}.

Definition setupOk (l : Logger) (conf : BackendConfig) : Logger * option error :=
  (samples.debugLogger, None).

Definition emptyConfig : BackendConfig :=
  {| StorageView := samples.storageOf ∅; CachingDisabled := true |}.

(** Two field groups, [default] first. *)
Definition twoGroups : list (list (string * list string)) :=
  [ [("default", ["name"; "type"])]; [("Options", ["ttl"])] ].

End more_samples.

(** * Properties *)

Import logical framework keysutil transit.

(** ** Prefixes *)

Lemma append_cons (c : ascii) (p t : string) :
  String c p +:+ t = String c (p +:+ t).
Proof. reflexivity. Qed.

Lemma append_nil (t : string) : "" +:+ t = t.
Proof. reflexivity. Qed.

Lemma substring_whole (s : string) : substring 0 (String.length s) s = s.
Proof. induction s as [|c s IH]; simpl; [reflexivity | now rewrite IH]. Qed.

Lemma HasPrefix_app (p t : string) : strings.HasPrefix (p +:+ t) p = true.
Proof.
  unfold strings.HasPrefix. apply andb_true_iff. split.
  - apply Nat.leb_le. induction p as [|c p IH];
      [rewrite append_nil | rewrite append_cons]; simpl; lia.
  - apply String.eqb_eq. induction p as [|c p IH].
    + rewrite append_nil. now destruct t.
    + rewrite append_cons. simpl. now rewrite IH.
Qed.

Lemma HasPrefix_split (p s : string) :
  strings.HasPrefix s p = true -> s = p +:+ strings.TrimPrefix s p.
Proof.
  unfold strings.TrimPrefix. intros H. rewrite H.
  unfold strings.HasPrefix in H. apply andb_true_iff in H as [Hlen Heq].
  apply Nat.leb_le in Hlen. apply String.eqb_eq in Heq.
  revert s Hlen Heq. induction p as [|c p IH]; intros s Hlen Heq.
  - rewrite append_nil. simpl. now rewrite Nat.sub_0_r, substring_whole.
  - destruct s as [|c' s]; simpl in Hlen; [lia|].
    simpl in Heq. injection Heq as -> Heq.
    rewrite append_cons. simpl. f_equal.
    apply IH; [lia | exact Heq].
Qed.

Lemma append_cancel_l (p t u : string) : p +:+ t = p +:+ u -> t = u.
Proof.
  induction p as [|c p IH]; intros H; [exact H|].
  rewrite !append_cons in H. injection H as H. now apply IH.
Qed.

Lemma TrimPrefix_app (p t : string) : strings.TrimPrefix (p +:+ t) p = t.
Proof.
  symmetry. apply (append_cancel_l p).
  apply HasPrefix_split, HasPrefix_app.
Qed.

(** ** Cache types *)

Lemma CacheType_eqb_eq (x y : CacheType) : CacheType_eqb x y = true <-> x = y.
Proof. destruct x, y; simpl; split; intros H; congruence. Qed.

Lemma CacheType_eqb_refl (x : CacheType) : CacheType_eqb x x = true.
Proof. now destruct x. Qed.

Lemma cacheTypeOf_unlimited : cacheTypeOf "unlimited" = SyncMap.
Proof. reflexivity. Qed.

Lemma cacheTypeOf_lru : cacheTypeOf "lru" = LRU.
Proof. reflexivity. Qed.

Lemma cacheTypeOf_SyncMap (s : string) :
  cacheTypeOf s = SyncMap -> s = "unlimited".
Proof.
  unfold cacheTypeOf. destruct (String.eqb_spec s "unlimited"); [easy|].
  destruct (String.eqb_spec s "lru"); discriminate.
Qed.

Lemma cacheTypeOf_LRU (s : string) : cacheTypeOf s = LRU -> s = "lru".
Proof.
  unfold cacheTypeOf. destruct (String.eqb_spec s "unlimited"); [discriminate|].
  destruct (String.eqb_spec s "lru"); [easy | discriminate].
Qed.

Lemma cacheTypeOf_other (s : string) :
  s <> "unlimited" -> s <> "lru" -> cacheTypeOf s = NotImplemented.
Proof.
  intros H1 H2. unfold cacheTypeOf.
  destruct (String.eqb_spec s "unlimited"); [contradiction|].
  destruct (String.eqb_spec s "lru"); [contradiction | reflexivity].
Qed.

(** ** The specification's lock manager meets its contract *)

Section ManagerFacts.
Context {Policy : Type}.
Implicit Types m : Manager Policy.

Lemma Manager_wf_invariant m : Manager_wf m -> CacheConfigInvariant m.
Proof.
  destruct m as [[es|capacity es]]; unfold Manager_wf, CacheConfigInvariant;
    simpl; intros H; [left | right]; auto.
Qed.

Lemma Manager_wf_ConvertCacheToSyncmap m :
  Manager_wf m -> Manager_wf (ConvertCacheToSyncmap m).
Proof. destruct m as [[es|capacity es]]; unfold Manager_wf; cbn; auto. Qed.

Lemma Manager_wf_ConvertCacheToLRU m size :
  Manager_wf m -> Manager_wf (fst (ConvertCacheToLRU m size)).
Proof.
  intros H. simpl. unfold Manager_ConvertCacheToLRU.
  destruct (Z.leb_spec size 0) as [Hle|Hlt]; [exact H|].
  destruct m as [[es|capacity es]]; simpl; [exact Hlt|].
  destruct (capacity =? size); [exact H | exact Hlt].
Qed.

Lemma Manager_wf_InvalidatePolicy m name :
  Manager_wf m -> Manager_wf (InvalidatePolicy m name).
Proof. destruct m as [[es|capacity es]]; unfold Manager_wf; cbn; auto. Qed.

Lemma Manager_FailedConversionKeepsState :
  FailedConversionKeepsState (Manager Policy).
Proof.
  intros m m' size err. simpl. unfold Manager_ConvertCacheToLRU.
  destruct (size <=? 0); [congruence|].
  destruct m as [[es|capacity es]]; simpl; [congruence|].
  destruct (capacity =? size); congruence.
Qed.

Lemma Manager_PositiveCapacityConverts :
  PositiveCapacityConverts (Manager Policy).
Proof.
  intros m size Hpos. simpl. unfold Manager_ConvertCacheToLRU.
  destruct (Z.leb_spec size 0) as [Hle|_]; [lia|].
  destruct m as [[es|capacity es]]; simpl.
  - eexists; split; [reflexivity|]. now split.
  - destruct (Z.eqb_spec capacity size) as [->|Hne];
      eexists; (split; [reflexivity|]); now split.
Qed.

End ManagerFacts.

Lemma Pinned_FailedConversionKeepsState : FailedConversionKeepsState Pinned.
Proof. intros m m' size err. simpl. congruence. Qed.

(** ** Requests *)

Lemma writeRequest_type (t : string) (n : Z) :
  Get_string (samples.writeRequest t n) "cache-type" = t.
Proof. unfold Get_string. simpl. now rewrite lookup_insert_eq. Qed.

Lemma writeRequest_size (t : string) (n : Z) :
  Get_int (samples.writeRequest t n) "cache-size" = n.
Proof.
  unfold Get_int. simpl.
  rewrite lookup_insert_ne by discriminate. now rewrite lookup_insert_eq.
Qed.

(** ** The handlers, over any lock manager *)

Section Handlers.
Context {LM : Type} `{!LockManager LM}.
Variable fmt_q : string -> string.
Implicit Types (b : backend LM) (req : Request) (d : FieldData) (s : Storage).

(** The primary record plays no part in the startup restore: adding or
    changing it leaves the result of [initializeCache] as it was. *)
Lemma initializeCache_cache_type_irrelevant b s (v : JSON) :
  initializeCache b
    {| data := <[ "config/cache-type" := v ]> (data s);
       getErr := getErr s; putErr := putErr s; putLog := putLog s |}
  = initializeCache b s.
Proof.
  unfold initializeCache, Get. simpl.
  now rewrite lookup_insert_ne by discriminate.
Qed.

(** C1 (the code departs from the claim): at startup the code reads the
    legacy record [config/cache-size] only.  On a storage whose only record
    is the primary [config/cache-type] record of an LRU of any capacity,
    [initializeCache] converts to the unbounded cache and reports success:
    the persisted strategy and capacity are not restored. *)
Theorem initializeCache_skips_primary_record b (size : Z) :
  initializeCache b
    (samples.storageOf {[ "config/cache-type" := samples.cacheTypeRecord LRU size ]})
  = (lm_ConvertCacheToSyncmap b, None).
Proof.
  unfold initializeCache, Get, samples.storageOf. simpl.
  now rewrite lookup_singleton_ne by discriminate.
Qed.

(** What the startup does restore: the legacy record.  Size 0 gives the
    unbounded cache, any other size is handed to [ConvertCacheToLRU]; with
    no legacy record the cache is unbounded. *)
Lemma initializeCache_legacy_record b s (size : Z) :
  getErr s "config/cache-size" = None ->
  data s !! "config/cache-size" = Some (samples.cacheSizeRecord size) ->
  initializeCache b s
  = if size =? 0 then (lm_ConvertCacheToSyncmap b, None)
    else lm_ConvertCacheToLRU b size.
Proof.
  intros Hget Hdata. unfold initializeCache, Get. now rewrite Hget, Hdata.
Qed.

Lemma initializeCache_no_legacy_record b s :
  getErr s "config/cache-size" = None ->
  data s !! "config/cache-size" = None ->
  initializeCache b s = (lm_ConvertCacheToSyncmap b, None).
Proof.
  intros Hget Hdata. unfold initializeCache, Get. now rewrite Hget, Hdata.
Qed.

(** C2: a write whose cache type and size equal the live ones of the lock
    manager (in a state that meets the configuration invariant) returns
    [nil, nil] and leaves the backend, its log of conversions, and the
    storage with its log of writes as they were. *)
Theorem write_same_config_is_noop b req d :
  CacheConfigInvariant (lm b) ->
  cacheTypeOf (Get_string d "cache-type") = GetCacheType (lm b) ->
  Get_int d "cache-size" = GetCacheSize (lm b) ->
  pathCacheConfigWrite fmt_q b req d = (b, req, (None, None)).
Proof.
  intros Hinv Htype Hsize. unfold pathCacheConfigWrite.
  rewrite Htype, Hsize, Z.eqb_refl, CacheType_eqb_refl.
  destruct Hinv as [[-> ->] | [-> Hpos]]; simpl.
  - reflexivity.
  - destruct (Z.leb_spec (GetCacheSize (lm b)) 0); [lia | reflexivity].
Qed.

(** C3: a write with a cache type other than [unlimited] and [lru], or
    with [lru] and a size that is not positive, returns an error response
    with a message and [ErrInvalidRequest]; the backend (live strategy and
    log of conversions) and the storage (records and log of writes) are
    unchanged. *)
Theorem write_invalid_request b req d :
  (Get_string d "cache-type" <> "unlimited" /\ Get_string d "cache-type" <> "lru")
  \/ (Get_string d "cache-type" = "lru" /\ Get_int d "cache-size" <= 0) ->
  exists msg : string,
    pathCacheConfigWrite fmt_q b req d
    = (b, req, (Some (ErrorResponse msg), Some ErrInvalidRequest))
    /\ (msg = "unknown cache-type " +:+ fmt_q (Get_string d "cache-type")
        \/ msg = "for lru cache-type, cache-size must be specified and be greater than zero").
Proof.
  intros [[Hu Hl] | [Hl Hsize]]; unfold pathCacheConfigWrite.
  - rewrite (cacheTypeOf_other _ Hu Hl). simpl.
    eexists. split; [reflexivity | now left].
  - rewrite Hl, cacheTypeOf_lru. simpl.
    destruct (Z.leb_spec (Get_int d "cache-size") 0); [|lia].
    eexists. split; [reflexivity | now right].
Qed.

(** C7: in a state that meets the configuration invariant, a read returns
    a response and no error; [cache_type] is [unlimited] or [lru] after the
    live strategy, [cache_max_size] is the live capacity, which is 0 when
    the strategy is unlimited; nothing is changed. *)
Theorem read_reports_live_config b req d :
  CacheConfigInvariant (lm b) ->
  exists name : string,
    pathCacheConfigRead b req d
    = (b, req,
       (Some {| Data := <[ "cache_type" := VString name ]>
                        (<[ "cache_max_size" := VInt (GetCacheSize (lm b)) ]> ∅) |},
        None))
    /\ ((name = "unlimited" /\ GetCacheType (lm b) = SyncMap
         /\ GetCacheSize (lm b) = 0)
        \/ (name = "lru" /\ GetCacheType (lm b) = LRU)).
Proof.
  intros [[Ht Hs] | [Ht Hs]]; unfold pathCacheConfigRead; rewrite Ht;
    eexists; (split; [reflexivity|]); [left | right]; auto.
Qed.

(** C9: on a key with the prefix [policy/], the callback calls
    [InvalidatePolicy] once, with the rest of the key after the prefix as
    the policy name. *)
Theorem invalidate_policy_key b (key : string) :
  strings.HasPrefix key "policy/" = true ->
  exists name : string,
    key = "policy/" +:+ name
    /\ lm (invalidate b key) = InvalidatePolicy (lm b) name
    /\ lmCalls (invalidate b key)
       = (lmCalls b ++ [CallInvalidatePolicy name])%list.
Proof.
  intros H. exists (strings.TrimPrefix key "policy/").
  split; [now apply HasPrefix_split|].
  unfold invalidate. rewrite H. now destruct (IsDebug (logger b)).
Qed.

(** C10: on a key without the prefix [policy/], the callback makes no call
    on the lock manager: the manager (cache and live configuration) and the
    log of calls are unchanged. *)
Theorem invalidate_other_key b (key : string) :
  strings.HasPrefix key "policy/" = false ->
  lm (invalidate b key) = lm b /\ lmCalls (invalidate b key) = lmCalls b.
Proof.
  intros H. unfold invalidate. rewrite H. now destruct (IsDebug (logger b)).
Qed.

(** What a write that reaches the conversions does, for the cache type
    [unlimited]: the manager is converted to the unbounded cache, and a
    record with the requested size, whatever it is, is put under
    [config/cache-type]. *)
Lemma write_unlimited_record b req d :
  Get_string d "cache-type" = "unlimited" ->
  ~ (GetCacheType (lm b) = SyncMap
     /\ GetCacheSize (lm b) = Get_int d "cache-size") ->
  let entry :=
    {| Key := "config/cache-type";
       Value := JObject [("cacheType", JInt 0);
                         ("size", JInt (Get_int d "cache-size"))] |} in
  pathCacheConfigWrite fmt_q b req d
  = (lm_ConvertCacheToSyncmap b,
     {| ReqStorage := fst (Put (ReqStorage req) entry) |},
     (None, snd (Put (ReqStorage req) entry))).
Proof.
  intros Ht Hne entry. unfold pathCacheConfigWrite.
  rewrite Ht, cacheTypeOf_unlimited. simpl.
  destruct (CacheType_eqb SyncMap (GetCacheType (lm b))
            && (Get_int d "cache-size" =? GetCacheSize (lm b))) eqn:E.
  - exfalso. apply Hne. apply andb_true_iff in E as [E1 E2].
    apply CacheType_eqb_eq in E1. apply Z.eqb_eq in E2. now split.
  - fold entry. unfold Put.
    now destruct (putErr (ReqStorage req) (Key entry)).
Qed.

(** C4 (the code departs from the claim): a write of cache type
    [unlimited] whose size differs from the live capacity puts, under
    [config/cache-type], a record of the unbounded strategy that carries
    the requested size as it came, which need not be 0. *)
Theorem write_unlimited_persists_requested_size b req d :
  Get_string d "cache-type" = "unlimited" ->
  Get_int d "cache-size" <> GetCacheSize (lm b) ->
  putLog (ReqStorage (snd (fst (pathCacheConfigWrite fmt_q b req d))))
  = (putLog (ReqStorage req)
     ++ [{| Key := "config/cache-type";
            Value := samples.cacheTypeRecord SyncMap (Get_int d "cache-size") |}])%list.
Proof.
  intros Ht Hne. rewrite (write_unlimited_record b req d Ht).
  - simpl. unfold Put. simpl.
    now destruct (putErr (ReqStorage req) "config/cache-type").
  - intros [_ H]. now apply Hne.
Qed.

(** C5: when a write of cache type [lru] reaches the conversion and
    [ConvertCacheToLRU] fails, the handler returns no response and the
    conversion's error wrapped with the text that names the failed
    conversion; the request's storage is as it was (no record put); and,
    the lock manager keeping its state on a failed conversion, the backend
    holds the manager it held before. *)
Theorem write_failed_conversion b req d (m' : LM) (err : error) :
  Get_string d "cache-type" = "lru" ->
  0 < Get_int d "cache-size" ->
  ~ (GetCacheType (lm b) = LRU
     /\ GetCacheSize (lm b) = Get_int d "cache-size") ->
  ConvertCacheToLRU (lm b) (Get_int d "cache-size") = (m', Some err) ->
  FailedConversionKeepsState LM ->
  pathCacheConfigWrite fmt_q b req d
  = ({| lm := lm b; logger := logger b;
        lmCalls := lmCalls b ++ [CallConvertCacheToLRU (Get_int d "cache-size")] |},
     req,
     (None,
      Some (errwrap_Wrapf "failed to convert cache-type to lru: {{err}}" err))).
Proof.
  intros Ht Hpos Hne Hconv Hkeep. unfold pathCacheConfigWrite.
  rewrite Ht, cacheTypeOf_lru. simpl.
  destruct (Z.leb_spec (Get_int d "cache-size") 0); [lia|].
  destruct (CacheType_eqb LRU (GetCacheType (lm b))
            && (Get_int d "cache-size" =? GetCacheSize (lm b))) eqn:E.
  - exfalso. apply Hne. apply andb_true_iff in E as [E1 E2].
    apply CacheType_eqb_eq in E1. apply Z.eqb_eq in E2. now split.
  - unfold lm_ConvertCacheToLRU. rewrite Hconv.
    now rewrite (Hkeep _ _ _ _ Hconv).
Qed.

(** C6: for a capacity [size > 0], on a lock manager that converts every
    positive capacity, a write of cache type [lru] and that size followed
    by a read gives [cache_type] [lru] and [cache_max_size] [size]. *)
Theorem write_lru_then_read b req d d' (size : Z) :
  0 < size ->
  Get_string d "cache-type" = "lru" ->
  Get_int d "cache-size" = size ->
  PositiveCapacityConverts LM ->
  let after := fst (pathCacheConfigWrite fmt_q b req d) in
  snd (pathCacheConfigRead (fst after) (snd after) d')
  = (Some {| Data := <[ "cache_type" := VString "lru" ]>
                     (<[ "cache_max_size" := VInt size ]> ∅) |},
     None).
Proof.
  intros Hpos Ht Hs Hconv after. subst after.
  unfold pathCacheConfigWrite.
  rewrite Ht, Hs, cacheTypeOf_lru. simpl.
  destruct (Z.leb_spec size 0); [lia|].
  destruct (CacheType_eqb LRU (GetCacheType (lm b))
            && (size =? GetCacheSize (lm b))) eqn:E.
  - apply andb_true_iff in E as [E1 E2].
    apply CacheType_eqb_eq in E1. apply Z.eqb_eq in E2.
    simpl. unfold pathCacheConfigRead. simpl. now rewrite <- E1, <- E2.
  - destruct (Hconv (lm b) size Hpos) as (m' & Hm' & Htype & Hsize).
    unfold lm_ConvertCacheToLRU. rewrite Hm'. unfold Put. simpl.
    destruct (putErr (ReqStorage req) "config/cache-type");
      simpl; unfold pathCacheConfigRead; simpl; now rewrite Htype, Hsize.
Qed.

(** C8 (the code departs from the claim): [initializeCache] drops the error
    of the startup read.  On a storage whose reads fail with [err],
    whatever records it holds, the startup converts to the unbounded cache
    and reports success; [err] does not reach the caller. *)
Theorem initializeCache_drops_read_error b (records : gmap string JSON)
    (err : error) :
  initializeCache b (samples.unreadableStorage records err)
  = (lm_ConvertCacheToSyncmap b, None).
Proof. reflexivity. Qed.

(** The other storage failures do reach the caller: a failed [Put] of the
    write handler is returned as it is. *)
Lemma write_put_error_propagates b req d (err : error) :
  Get_string d "cache-type" = "unlimited" ->
  ~ (GetCacheType (lm b) = SyncMap
     /\ GetCacheSize (lm b) = Get_int d "cache-size") ->
  putErr (ReqStorage req) "config/cache-type" = Some err ->
  snd (pathCacheConfigWrite fmt_q b req d) = (None, Some err).
Proof.
  intros Ht Hne Hput. rewrite (write_unlimited_record b req d Ht Hne).
  simpl. unfold Put. simpl. now rewrite Hput.
Qed.

(** A legacy record that cannot be decoded makes the startup fail with the
    decoding error. *)
Lemma initializeCache_decode_error_propagates b s :
  getErr s "config/cache-size" = None ->
  data s !! "config/cache-size" = Some JMalformed ->
  initializeCache b s = (b, Some (errors_New "json: invalid document")).
Proof.
  intros Hget Hdata. unfold initializeCache, Get. now rewrite Hget, Hdata.
Qed.

End Handlers.

(** ** The configuration invariant along the backend's operations

    On the specification's lock manager, a backend whose manager is well
    formed stays so through the startup restore, writes, reads and
    invalidations; the invariant that the read and the no-op write rely on
    therefore holds in every state the backend reaches. *)

Section ReferenceBackend.
Context {Policy : Type}.
Variable fmt_q : string -> string.
Implicit Types (b : backend (Manager Policy)) (req : Request) (d : FieldData).

Lemma lm_ConvertCacheToSyncmap_wf b :
  Manager_wf (lm b) -> Manager_wf (lm (lm_ConvertCacheToSyncmap b)).
Proof. apply Manager_wf_ConvertCacheToSyncmap. Qed.

Lemma lm_ConvertCacheToLRU_wf b (size : Z) :
  Manager_wf (lm b) -> Manager_wf (lm (fst (lm_ConvertCacheToLRU b size))).
Proof.
  intros H. pose proof (Manager_wf_ConvertCacheToLRU (lm b) size H) as H'.
  unfold lm_ConvertCacheToLRU.
  now destruct (ConvertCacheToLRU (lm b) size) as [m err].
Qed.

Lemma initializeCache_wf b (s : Storage) :
  Manager_wf (lm b) -> Manager_wf (lm (fst (initializeCache b s))).
Proof.
  intros H. unfold initializeCache.
  destruct (Get s "config/cache-size") as [[entry|] e].
  - destruct (DecodeJSON entry) as [stored [err|]]; [exact H|].
    destruct (ccs_Size stored =? 0);
      [now apply lm_ConvertCacheToSyncmap_wf | now apply lm_ConvertCacheToLRU_wf].
  - now apply lm_ConvertCacheToSyncmap_wf.
Qed.

Lemma invalidate_wf b (key : string) :
  Manager_wf (lm b) -> Manager_wf (lm (invalidate b key)).
Proof.
  intros H. unfold invalidate.
  destruct (strings.HasPrefix key "policy/"), (IsDebug (logger b)); simpl;
    try exact H; now apply Manager_wf_InvalidatePolicy.
Qed.

Lemma pathCacheConfigRead_wf b req d :
  Manager_wf (lm b) -> Manager_wf (lm (fst (fst (pathCacheConfigRead b req d)))).
Proof. now intros H. Qed.

Lemma pathCacheConfigWrite_wf b req d :
  Manager_wf (lm b) ->
  Manager_wf (lm (fst (fst (pathCacheConfigWrite fmt_q b req d)))).
Proof.
  intros H. unfold pathCacheConfigWrite.
  destruct (CacheType_eqb (cacheTypeOf (Get_string d "cache-type")) NotImplemented);
    [exact H|].
  destruct (CacheType_eqb (cacheTypeOf (Get_string d "cache-type")) LRU
            && (Get_int d "cache-size" <=? 0)); [exact H|].
  destruct (CacheType_eqb (cacheTypeOf (Get_string d "cache-type"))
              (GetCacheType (lm b))
            && (Get_int d "cache-size" =? GetCacheSize (lm b))); [exact H|].
  set (b1 := if CacheType_eqb (cacheTypeOf (Get_string d "cache-type")) SyncMap
             then lm_ConvertCacheToSyncmap b else b).
  assert (H1 : Manager_wf (lm b1)).
  { subst b1. destruct (CacheType_eqb _ SyncMap);
      [now apply lm_ConvertCacheToSyncmap_wf | exact H]. }
  pose proof (lm_ConvertCacheToLRU_wf b1 (Get_int d "cache-size") H1) as H2.
  destruct (CacheType_eqb (cacheTypeOf (Get_string d "cache-type")) LRU).
  - destruct (lm_ConvertCacheToLRU b1 (Get_int d "cache-size")) as [b2 [err|]];
      [exact H2|].
    simpl. unfold Put. simpl.
    now destruct (putErr (ReqStorage req) "config/cache-type").
  - simpl. unfold Put. simpl.
    now destruct (putErr (ReqStorage req) "config/cache-type").
Qed.

End ReferenceBackend.

(** ** The theorems at sample states *)

Lemma write_same_config_is_noop_witness :
  pathCacheConfigWrite samples.quote (samples.lruBackend 50)
    samples.emptyRequest (samples.writeRequest "lru" 50)
  = (samples.lruBackend 50, samples.emptyRequest, (None, None)).
Proof.
  apply write_same_config_is_noop.
  - right. split; reflexivity.
  - reflexivity.
  - reflexivity.
Defined.

Lemma write_invalid_request_witness :
  exists msg : string,
    pathCacheConfigWrite samples.quote samples.unlimitedBackend
      samples.emptyRequest (samples.writeRequestNoSize "lru")
    = (samples.unlimitedBackend, samples.emptyRequest,
       (Some (ErrorResponse msg), Some ErrInvalidRequest))
    /\ (msg = "unknown cache-type "
              +:+ samples.quote (Get_string (samples.writeRequestNoSize "lru") "cache-type")
        \/ msg = "for lru cache-type, cache-size must be specified and be greater than zero").
Proof.
  apply write_invalid_request.
  right. split; [reflexivity | vm_compute; discriminate].
Defined.

Lemma read_reports_live_config_witness :
  exists name : string,
    pathCacheConfigRead (samples.lruBackend 50) samples.emptyRequest
      (samples.writeRequestNoSize "")
    = (samples.lruBackend 50, samples.emptyRequest,
       (Some {| Data := <[ "cache_type" := VString name ]>
                        (<[ "cache_max_size" := VInt 50 ]> ∅) |},
        None))
    /\ ((name = "unlimited" /\ GetCacheType (lm (samples.lruBackend 50)) = SyncMap
         /\ GetCacheSize (lm (samples.lruBackend 50)) = 0)
        \/ (name = "lru" /\ GetCacheType (lm (samples.lruBackend 50)) = LRU)).
Proof.
  refine (read_reports_live_config (samples.lruBackend 50)
            samples.emptyRequest (samples.writeRequestNoSize "") _).
  right. split; reflexivity.
Defined.

Lemma invalidate_policy_key_witness :
  exists name : string,
    "policy/my-key" = "policy/" +:+ name
    /\ lm (invalidate samples.unlimitedBackend "policy/my-key")
       = InvalidatePolicy (lm samples.unlimitedBackend) name
    /\ lmCalls (invalidate samples.unlimitedBackend "policy/my-key")
       = (lmCalls samples.unlimitedBackend ++ [CallInvalidatePolicy name])%list.
Proof. apply invalidate_policy_key. reflexivity. Defined.

Lemma invalidate_other_key_witness :
  lm (invalidate samples.unlimitedBackend "archive/my-key")
  = lm samples.unlimitedBackend
  /\ lmCalls (invalidate samples.unlimitedBackend "archive/my-key")
     = lmCalls samples.unlimitedBackend.
Proof. apply invalidate_other_key. reflexivity. Defined.

Lemma write_unlimited_persists_requested_size_witness :
  putLog (ReqStorage (snd (fst
    (pathCacheConfigWrite samples.quote samples.unlimitedBackend
       samples.emptyRequest (samples.writeRequest "unlimited" 5)))))
  = [{| Key := "config/cache-type";
        Value := JObject [("cacheType", JInt 0); ("size", JInt 5)] |}].
Proof.
  apply (write_unlimited_persists_requested_size samples.quote
           samples.unlimitedBackend samples.emptyRequest
           (samples.writeRequest "unlimited" 5)).
  - reflexivity.
  - vm_compute. discriminate.
Defined.

Lemma write_failed_conversion_witness :
  pathCacheConfigWrite samples.quote samples.pinnedBackend
    samples.emptyRequest (samples.writeRequest "lru" 50)
  = ({| lm := lm samples.pinnedBackend;
        logger := logger samples.pinnedBackend;
        lmCalls := [CallConvertCacheToLRU 50] |},
     samples.emptyRequest,
     (None,
      Some (errwrap_Wrapf "failed to convert cache-type to lru: {{err}}"
              (errors_New "cache is pinned")))).
Proof.
  apply (write_failed_conversion samples.quote samples.pinnedBackend
           samples.emptyRequest (samples.writeRequest "lru" 50)
           (lm samples.pinnedBackend) (errors_New "cache is pinned")).
  - reflexivity.
  - vm_compute. reflexivity.
  - vm_compute. intros [H _]. discriminate H.
  - reflexivity.
  - exact Pinned_FailedConversionKeepsState.
Defined.

Lemma write_lru_then_read_witness :
  snd (pathCacheConfigRead
         (fst (fst (pathCacheConfigWrite samples.quote samples.unlimitedBackend
                      samples.emptyRequest (samples.writeRequest "lru" 50))))
         (snd (fst (pathCacheConfigWrite samples.quote samples.unlimitedBackend
                      samples.emptyRequest (samples.writeRequest "lru" 50))))
         (samples.writeRequestNoSize ""))
  = (Some {| Data := <[ "cache_type" := VString "lru" ]>
                     (<[ "cache_max_size" := VInt 50 ]> ∅) |},
     None).
Proof.
  apply (write_lru_then_read samples.quote samples.unlimitedBackend
           samples.emptyRequest (samples.writeRequest "lru" 50)
           (samples.writeRequestNoSize "") 50).
  - lia.
  - reflexivity.
  - reflexivity.
  - exact Manager_PositiveCapacityConverts.
Defined.

(** * Further properties of the code *)

(** ** The startup restore *)

Section StartupFacts.
Context {LM : Type} `{!LockManager LM}.
Implicit Types (b : backend LM) (s : Storage).

(** X1: the startup restore reads nothing but the record under
    [config/cache-size]: two storages that agree on that key (the record
    and the read fault) give the same result, whatever else they hold. *)
Theorem initializeCache_reads_legacy_key_only b s s' :
  getErr s "config/cache-size" = getErr s' "config/cache-size" ->
  data s !! "config/cache-size" = data s' !! "config/cache-size" ->
  initializeCache b s = initializeCache b s'.
Proof.
  intros Herr Hdata. unfold initializeCache, Get. now rewrite Herr, Hdata.
Qed.

(** X2: a legacy record that is read and decoded is restored by its size:
    size 0 converts to the unbounded cache and succeeds; any other size,
    negative ones too, is handed to [ConvertCacheToLRU], whose result
    (manager and error) is the startup's result. *)
Theorem initializeCache_restores_legacy_size b s (raw : JSON)
    (stored : configCacheSize) :
  getErr s "config/cache-size" = None ->
  data s !! "config/cache-size" = Some raw ->
  DecodeJSON {| Key := "config/cache-size"; Value := raw |} = (stored, None) ->
  initializeCache b s
  = if ccs_Size stored =? 0 then (lm_ConvertCacheToSyncmap b, None)
    else lm_ConvertCacheToLRU b (ccs_Size stored).
Proof.
  intros Herr Hdata Hdec. unfold initializeCache, Get.
  now rewrite Herr, Hdata, Hdec.
Qed.

(** X3: when the legacy record is read but cannot be decoded, the startup
    returns the decoding error and converts nothing: the backend is as it
    was. *)
Theorem initializeCache_decode_error b s (raw : JSON) (err : error) :
  getErr s "config/cache-size" = None ->
  data s !! "config/cache-size" = Some raw ->
  snd (DecodeJSON {| Key := "config/cache-size"; Value := raw |}) = Some err ->
  initializeCache b s = (b, Some err).
Proof.
  intros Herr Hdata Hdec. unfold initializeCache, Get. rewrite Herr, Hdata.
  destruct (DecodeJSON _) as [stored e]. simpl in Hdec. now subst.
Qed.

(** X4: the startup makes at most one call on the lock manager, a
    conversion: none when it fails on decoding, [ConvertCacheToSyncmap], or
    [ConvertCacheToLRU] with a size other than 0.  It never invalidates a
    policy and leaves the logger alone. *)
Theorem initializeCache_calls b s :
  logger (fst (initializeCache b s)) = logger b
  /\ (lmCalls (fst (initializeCache b s)) = lmCalls b
      \/ lmCalls (fst (initializeCache b s))
         = (lmCalls b ++ [CallConvertCacheToSyncmap])%list
      \/ exists size : Z,
           size <> 0
           /\ lmCalls (fst (initializeCache b s))
              = (lmCalls b ++ [CallConvertCacheToLRU size])%list).
Proof.
  unfold initializeCache.
  destruct (Get s "config/cache-size") as [[entry|] e].
  - destruct (DecodeJSON entry) as [stored [err|]]; [simpl; auto|].
    destruct (Z.eqb_spec (ccs_Size stored) 0) as [Hz|Hnz]; [simpl; auto|].
    unfold lm_ConvertCacheToLRU.
    destruct (ConvertCacheToLRU (lm b) (ccs_Size stored)) as [m err]. simpl.
    split; [reflexivity|]. right. right. now exists (ccs_Size stored).
  - simpl. auto.
Qed.

(** X5: the startup fails in two cases only: the legacy record was read
    and does not decode, or it decodes to a size other than 0 and
    [ConvertCacheToLRU] refuses that size.  A record that is absent or
    cannot be read never makes the startup fail. *)
Theorem initializeCache_error_iff b s :
  is_Some (snd (initializeCache b s))
  <-> exists entry : StorageEntry,
        fst (Get s "config/cache-size") = Some entry
        /\ (is_Some (snd (DecodeJSON entry))
            \/ (snd (DecodeJSON entry) = None
                /\ ccs_Size (fst (DecodeJSON entry)) <> 0
                /\ is_Some (snd (ConvertCacheToLRU (lm b)
                                   (ccs_Size (fst (DecodeJSON entry))))))).
Proof.
  unfold initializeCache.
  destruct (Get s "config/cache-size") as [[entry|] e]; simpl.
  - destruct (DecodeJSON entry) as [stored [err|]] eqn:Hdec; simpl.
    + split; [|eauto]. intros _. exists entry. rewrite Hdec. simpl. eauto.
    + destruct (Z.eqb_spec (ccs_Size stored) 0) as [Hz|Hnz]; simpl.
      * split; [intros [x Hx]; discriminate|].
        intros (entry' & [= <-] & Hcase). rewrite Hdec in Hcase. simpl in Hcase.
        destruct Hcase as [[x Hx] | (_ & Hne & _)]; [discriminate | contradiction].
      * unfold lm_ConvertCacheToLRU.
        destruct (ConvertCacheToLRU (lm b) (ccs_Size stored)) as [m err] eqn:Hc.
        simpl. split.
        -- intros Herr. exists entry. rewrite Hdec. simpl. rewrite Hc. simpl.
           split; [reflexivity|]. right. auto.
        -- intros (entry' & [= <-] & Hcase). rewrite Hdec in Hcase.
           simpl in Hcase. rewrite Hc in Hcase. simpl in Hcase.
           destruct Hcase as [[x Hx] | (_ & _ & H)]; [discriminate | exact H].
  - split; [intros [x Hx]; discriminate|].
    intros (entry & Hentry & _). discriminate.
Qed.

End StartupFacts.

(** ** The write and read handlers *)

Section WriteFacts.
Context {LM : Type} `{!LockManager LM}.
Variable fmt_q : string -> string.
Implicit Types (b : backend LM) (req : Request) (d : FieldData).

(** Case analysis along the branches of [pathCacheConfigWrite]. *)
Ltac write_cases d :=
  unfold pathCacheConfigWrite, lm_ConvertCacheToLRU, lm_ConvertCacheToSyncmap, Put;
  destruct (cacheTypeOf (Get_string d "cache-type")) eqn:Htype; simpl;
  repeat match goal with
    | |- context [Z.leb ?x ?y] => destruct (Z.leb_spec x y); simpl
    | |- context [CacheType_eqb ?x ?y && Z.eqb ?u ?v] =>
        destruct (CacheType_eqb x y && Z.eqb u v) eqn:Hsame; simpl
    | |- context [ConvertCacheToLRU ?m ?n] =>
        let m' := fresh "m'" in
        let err := fresh "err" in
        destruct (ConvertCacheToLRU m n) as [m' [err|]] eqn:Hconv; simpl
    | |- context [putErr ?s ?k] => destruct (putErr s k) eqn:Hput; simpl
    end.

Lemma same_config_true (t : CacheType) (size : Z) (m : LM) :
  CacheType_eqb t (GetCacheType m) && (size =? GetCacheSize m) = true ->
  GetCacheType m = t /\ GetCacheSize m = size.
Proof.
  intros H. apply andb_true_iff in H as [H1 H2].
  apply CacheType_eqb_eq in H1. apply Z.eqb_eq in H2. now split.
Qed.

Lemma write_noop_when_same b req d :
  (GetCacheType (lm b) = SyncMap
   \/ (GetCacheType (lm b) = LRU /\ 0 < GetCacheSize (lm b))) ->
  cacheTypeOf (Get_string d "cache-type") = GetCacheType (lm b) ->
  Get_int d "cache-size" = GetCacheSize (lm b) ->
  pathCacheConfigWrite fmt_q b req d = (b, req, (None, None)).
Proof.
  intros Hlive Htype Hsize. unfold pathCacheConfigWrite.
  rewrite Htype, Hsize, Z.eqb_refl, CacheType_eqb_refl.
  destruct Hlive as [-> | [-> Hpos]]; simpl; [reflexivity|].
  destruct (Z.leb_spec (GetCacheSize (lm b)) 0); [lia | reflexivity].
Qed.

(** X6: a write leaves every record other than [config/cache-type] and
    both fault oracles of the storage as they were, whatever the request
    and however the write ends. *)
Theorem write_storage_frame b req d (k : string) :
  k <> "config/cache-type" ->
  let s' := ReqStorage (snd (fst (pathCacheConfigWrite fmt_q b req d))) in
  data s' !! k = data (ReqStorage req) !! k
  /\ getErr s' = getErr (ReqStorage req)
  /\ putErr s' = putErr (ReqStorage req).
Proof.
  intros Hk. write_cases d; auto;
    (split; [|auto]); now rewrite lookup_insert_ne.
Qed.

(** X7: a write issues at most one [Put].  When it does, the entry is keyed
    [config/cache-type], its type is that of the request and is [unlimited]
    or [lru], its size is the request's, and an entry of type [lru] has a
    positive size. *)
Theorem write_puts_at_most_once b req d :
  let s' := ReqStorage (snd (fst (pathCacheConfigWrite fmt_q b req d))) in
  putLog s' = putLog (ReqStorage req)
  \/ exists t : CacheType,
       cacheTypeOf (Get_string d "cache-type") = t
       /\ t <> NotImplemented
       /\ (t = LRU -> 0 < Get_int d "cache-size")
       /\ putLog s'
          = (putLog (ReqStorage req)
             ++ [{| Key := "config/cache-type";
                    Value := samples.cacheTypeRecord t (Get_int d "cache-size") |}])%list.
Proof.
  write_cases d; auto; right;
    [exists SyncMap | exists SyncMap | exists LRU | exists LRU];
    (split; [reflexivity|]); (split; [discriminate|]);
    (split; [|reflexivity]); intros; (discriminate || assumption).
Qed.

(** X8: a write makes at most one call on the lock manager, the
    conversion that the request's type names ([ConvertCacheToLRU] only with
    the request's positive size); it never invalidates a policy and leaves
    the logger alone. *)
Theorem write_calls b req d :
  let b' := fst (fst (pathCacheConfigWrite fmt_q b req d)) in
  logger b' = logger b
  /\ (lmCalls b' = lmCalls b
      \/ (Get_string d "cache-type" = "unlimited"
          /\ lmCalls b' = (lmCalls b ++ [CallConvertCacheToSyncmap])%list)
      \/ (Get_string d "cache-type" = "lru"
          /\ 0 < Get_int d "cache-size"
          /\ lmCalls b'
             = (lmCalls b ++ [CallConvertCacheToLRU (Get_int d "cache-size")])%list)).
Proof.
  write_cases d; (split; [reflexivity|]); auto.
  all: try (right; left; split; [now apply cacheTypeOf_SyncMap | reflexivity]).
  all: right; right; split; [now apply cacheTypeOf_LRU | now split].
Qed.

(** X9: a write that returns no error either was the no-op (the request
    equals the live configuration; backend and storage unchanged) or has
    stored the requested type and size under [config/cache-type]. *)
Theorem write_success_means_stored b req d :
  snd (snd (pathCacheConfigWrite fmt_q b req d)) = None ->
  (fst (pathCacheConfigWrite fmt_q b req d) = (b, req)
   /\ GetCacheType (lm b) = cacheTypeOf (Get_string d "cache-type")
   /\ GetCacheSize (lm b) = Get_int d "cache-size")
  \/ data (ReqStorage (snd (fst (pathCacheConfigWrite fmt_q b req d))))
       !! "config/cache-type"
     = Some (samples.cacheTypeRecord (cacheTypeOf (Get_string d "cache-type"))
               (Get_int d "cache-size")).
Proof.
  write_cases d; intros Hnil; try discriminate Hnil.
  all: try (left; split; [reflexivity | now apply same_config_true]).
  all: right; now rewrite lookup_insert_eq.
Qed.

(** X10: the handler returns a response body only when it rejects the
    request: then the error is [ErrInvalidRequest], the request failed one
    of the two validations, and backend and storage are unchanged. *)
Theorem write_response_only_on_rejection b req d (resp : Response) :
  fst (snd (pathCacheConfigWrite fmt_q b req d)) = Some resp ->
  snd (snd (pathCacheConfigWrite fmt_q b req d)) = Some ErrInvalidRequest
  /\ fst (pathCacheConfigWrite fmt_q b req d) = (b, req)
  /\ (cacheTypeOf (Get_string d "cache-type") = NotImplemented
      \/ (cacheTypeOf (Get_string d "cache-type") = LRU
          /\ Get_int d "cache-size" <= 0)).
Proof.
  write_cases d; intros Hresp; try discriminate Hresp; auto.
Qed.

(** X11: a write of type [lru] whose conversion succeeds installs the
    converted manager and then puts the record; the handler's error is the
    error of that [Put], unwrapped. *)
Theorem write_lru_converts_then_puts b req d (m' : LM) :
  Get_string d "cache-type" = "lru" ->
  0 < Get_int d "cache-size" ->
  ~ (GetCacheType (lm b) = LRU
     /\ GetCacheSize (lm b) = Get_int d "cache-size") ->
  ConvertCacheToLRU (lm b) (Get_int d "cache-size") = (m', None) ->
  let entry :=
    {| Key := "config/cache-type";
       Value := JObject [("cacheType", JInt 1);
                         ("size", JInt (Get_int d "cache-size"))] |} in
  pathCacheConfigWrite fmt_q b req d
  = ({| lm := m'; logger := logger b;
        lmCalls := lmCalls b ++ [CallConvertCacheToLRU (Get_int d "cache-size")] |},
     {| ReqStorage := fst (Put (ReqStorage req) entry) |},
     (None, snd (Put (ReqStorage req) entry))).
Proof.
  intros Ht Hpos Hne Hconv entry. unfold pathCacheConfigWrite.
  rewrite Ht, cacheTypeOf_lru. simpl.
  destruct (Z.leb_spec (Get_int d "cache-size") 0); [lia|].
  destruct (CacheType_eqb LRU (GetCacheType (lm b))
            && (Get_int d "cache-size" =? GetCacheSize (lm b))) eqn:E.
  - exfalso. apply Hne. now apply same_config_true.
  - unfold lm_ConvertCacheToLRU. rewrite Hconv. fold entry. unfold Put.
    now destruct (putErr (ReqStorage req) (Key entry)).
Qed.

(** X12: a failed [Put] does not undo the conversion.  When a write of type
    [unlimited] reaches the [Put] and the storage refuses it with [err],
    the handler returns [err]; the records are as before, but the lock
    manager has been converted. *)
Theorem write_failed_put_keeps_conversion b req d (err : error) :
  Get_string d "cache-type" = "unlimited" ->
  ~ (GetCacheType (lm b) = SyncMap
     /\ GetCacheSize (lm b) = Get_int d "cache-size") ->
  putErr (ReqStorage req) "config/cache-type" = Some err ->
  let r := pathCacheConfigWrite fmt_q b req d in
  snd r = (None, Some err)
  /\ data (ReqStorage (snd (fst r))) = data (ReqStorage req)
  /\ lm (fst (fst r)) = ConvertCacheToSyncmap (lm b).
Proof.
  intros Ht Hne Hput r. subst r.
  rewrite (write_unlimited_record fmt_q b req d Ht Hne).
  simpl. unfold Put. simpl. now rewrite Hput.
Qed.

(** X13: on a lock manager that converts every positive capacity, a write
    of type [lru] with a positive size, repeated on the state it left, is
    the no-op, whether or not the first write managed to store its
    record. *)
Theorem write_lru_twice b req d :
  Get_string d "cache-type" = "lru" ->
  0 < Get_int d "cache-size" ->
  PositiveCapacityConverts LM ->
  let after := fst (pathCacheConfigWrite fmt_q b req d) in
  pathCacheConfigWrite fmt_q (fst after) (snd after) d
  = (fst after, snd after, (None, None)).
Proof.
  intros Ht Hpos Hconv after.
  assert (Hlive : GetCacheType (lm (fst after)) = LRU
                  /\ GetCacheSize (lm (fst after)) = Get_int d "cache-size").
  { subst after. unfold pathCacheConfigWrite.
    rewrite Ht, cacheTypeOf_lru. simpl.
    destruct (Z.leb_spec (Get_int d "cache-size") 0); [lia|].
    destruct (CacheType_eqb LRU (GetCacheType (lm b))
              && (Get_int d "cache-size" =? GetCacheSize (lm b))) eqn:E.
    - now apply same_config_true.
    - destruct (Hconv (lm b) _ Hpos) as (m' & Hm' & Htype & Hsize).
      unfold lm_ConvertCacheToLRU. rewrite Hm'. unfold Put. simpl.
      now destruct (putErr (ReqStorage req) "config/cache-type"). }
  destruct Hlive as [Htype Hsize].
  apply write_noop_when_same.
  - right. split; [exact Htype | now rewrite Hsize].
  - now rewrite Ht, cacheTypeOf_lru, Htype.
  - now rewrite Hsize.
Qed.

(** X14: a read answers in every state of the lock manager, changes
    nothing and reports the manager's size as it is; the type it reports is
    [unknown] exactly when the manager's type is neither [SyncMap] nor
    [LRU]. *)
Theorem read_in_any_state b req d :
  exists name : string,
    pathCacheConfigRead b req d
    = (b, req,
       (Some {| Data := <[ "cache_type" := VString name ]>
                        (<[ "cache_max_size" := VInt (GetCacheSize (lm b)) ]> ∅) |},
        None))
    /\ (name = "unknown" <-> GetCacheType (lm b) = NotImplemented).
Proof.
  unfold pathCacheConfigRead.
  destruct (GetCacheType (lm b)); eexists; (split; [reflexivity|]);
    split; intros; (discriminate || reflexivity).
Qed.

End WriteFacts.

(** ** The invalidation callback over a run of keys, and the factory *)

Section CallbackFacts.
Context {LM : Type} `{!LockManager LM}.
Implicit Types (b : backend LM).

Lemma invalidate_step b (key : string) :
  lm (invalidate b key)
  = (if strings.HasPrefix key "policy/"
     then InvalidatePolicy (lm b) (strings.TrimPrefix key "policy/")
     else lm b)
  /\ lmCalls (invalidate b key)
     = (lmCalls b
        ++ (if strings.HasPrefix key "policy/"
            then [CallInvalidatePolicy (strings.TrimPrefix key "policy/")]
            else []))%list.
Proof.
  unfold invalidate.
  destruct (strings.HasPrefix key "policy/"), (IsDebug (logger b)); simpl;
    now rewrite ?app_nil_r.
Qed.

(** X15: a run of callbacks, one per key in the order of delivery,
    invalidates the policies named by the keys that start with [policy/],
    in that order and once per such key; the other keys add nothing. *)
Theorem invalidate_run (keys : list string) b :
  let names :=
    map (fun key => strings.TrimPrefix key "policy/")
        (List.filter (fun key => strings.HasPrefix key "policy/") keys) in
  lm (fold_left invalidate keys b) = fold_left InvalidatePolicy names (lm b)
  /\ lmCalls (fold_left invalidate keys b)
     = (lmCalls b ++ map CallInvalidatePolicy names)%list.
Proof.
  revert b. induction keys as [|key keys IH]; intros b; simpl.
  - now rewrite app_nil_r.
  - destruct (IH (invalidate b key)) as [IHlm IHcalls].
    destruct (invalidate_step b key) as [Hlm Hcalls].
    simpl in IHlm, IHcalls. rewrite IHlm, IHcalls, Hlm, Hcalls.
    destruct (strings.HasPrefix key "policy/"); simpl.
    + now rewrite <- app_assoc.
    + now rewrite app_nil_r.
Qed.

Variable NewLockManager : bool -> LM.
Variable Setup : Logger -> BackendConfig -> Logger * option error.

(** X16: the factory returns a backend exactly when [Setup] succeeds; a
    failed [Setup] gives no backend and its own error, and the cache is
    then not initialized. *)
Theorem Factory_backend_iff_Setup (conf : BackendConfig) :
  (is_Some (fst (Factory NewLockManager Setup conf))
   <-> snd (Setup {| IsDebug := false; lines := [] |} conf) = None)
  /\ (forall err : error,
        snd (Setup {| IsDebug := false; lines := [] |} conf) = Some err ->
        Factory NewLockManager Setup conf = (None, Some err)).
Proof.
  unfold Factory, Backend. simpl.
  destruct (Setup _ conf) as [l [e|]]; simpl.
  - split; [split; [intros [x Hx]; discriminate | discriminate]|].
    now intros err [= ->].
  - split; [|discriminate].
    destruct (initializeCache _ _) as [b' [e|]]; simpl; split; eauto.
Qed.

(** X17: when [Setup] succeeds and the read of the legacy record yields no
    entry (absent, or the read failed), the factory succeeds with a backend
    whose lock manager is the new one converted to the unbounded cache; the
    conversion is made whether or not caching is disabled. *)
Theorem Factory_without_entry (conf : BackendConfig) (l : Logger) :
  Setup {| IsDebug := false; lines := [] |} conf = (l, None) ->
  fst (Get (StorageView conf) "config/cache-size") = None ->
  Factory NewLockManager Setup conf
  = (Some {| lm := ConvertCacheToSyncmap (NewLockManager (CachingDisabled conf));
             logger := l;
             lmCalls := [CallConvertCacheToSyncmap] |},
     None).
Proof.
  intros Hsetup Hget. unfold Factory, Backend. simpl. rewrite Hsetup.
  unfold initializeCache.
  destruct (Get (StorageView conf) "config/cache-size") as [entry e].
  simpl in Hget. now subst.
Qed.

End CallbackFacts.

(** ** Merging field lists ([openapi-to-attrs.js]) *)

Section FieldLists.
Import openapi_to_attrs.
Implicit Types (currentFields newFields excludedFields : list string).

Lemma includes_In (a : list string) (x : string) :
  includes a x = true <-> In x a.
Proof.
  unfold includes. rewrite existsb_exists. split.
  - intros (y & Hy & Heq). apply String.eqb_eq in Heq. now subst.
  - intros Hx. exists x. split; [exact Hx | apply String.eqb_refl].
Qed.

Lemma isOther_true (present excluded : list string) (field : string) :
  isOther present excluded field = true
  <-> ~ In field present /\ ~ In field excluded.
Proof.
  unfold isOther. rewrite andb_true_iff, !negb_true_iff.
  rewrite <- !not_true_iff_false, !includes_In. tauto.
Qed.

Lemma filter_nil_iff {A : Type} (f : A -> bool) (l : list A) :
  List.filter f l = [] <-> forall x, In x l -> f x = false.
Proof.
  induction l as [|a l IH]; simpl.
  - split; [intros _ x [] | reflexivity].
  - destruct (f a) eqn:Ha.
    + split; [discriminate|]. intros H. specialize (H a (or_introl eq_refl)).
      congruence.
    + rewrite IH. split.
      * intros H x [<-|Hx]; [exact Ha | now apply H].
      * intros H x Hx. apply H. now right.
Qed.

Lemma filter_sublist {A : Type} (f : A -> bool) (l : list A) :
  sublist (List.filter f l) l.
Proof.
  induction l as [|a l IH]; simpl; [constructor|].
  destruct (f a); now constructor.
Qed.

(** The test on [otherFields.length] changes nothing: appending no field
    is returning the current fields. *)
Lemma combineFields_app currentFields newFields excludedFields :
  combineFields currentFields newFields excludedFields
  = (currentFields
     ++ List.filter (isOther currentFields excludedFields) newFields)%list.
Proof.
  unfold combineFields.
  destruct (List.filter _ newFields) as [|f fs]; simpl;
    [now rewrite app_nil_r | reflexivity].
Qed.

(** X18: a field is in the combined list exactly when it is a current
    field, or a new field that is not excluded; an excluded field is there
    only if it was a current one. *)
Theorem combineFields_In currentFields newFields excludedFields (field : string) :
  In field (combineFields currentFields newFields excludedFields)
  <-> In field currentFields
      \/ (In field newFields /\ ~ In field excludedFields).
Proof.
  rewrite combineFields_app, in_app_iff, List.filter_In, isOther_true.
  split; [tauto|]. intros [H | [Hn He]]; [now left|].
  destruct (in_dec string_dec field currentFields); [now left | now right].
Qed.

(** X19: the current fields keep their places at the front, and the fields
    added after them come in the order they have among the new fields. *)
Theorem combineFields_order currentFields newFields excludedFields :
  exists added : list string,
    combineFields currentFields newFields excludedFields
    = (currentFields ++ added)%list
    /\ sublist added newFields.
Proof.
  eexists. split; [apply combineFields_app | apply filter_sublist].
Qed.

(** X20: when neither the current nor the new fields repeat a name, the
    combined list repeats none. *)
Theorem combineFields_NoDup currentFields newFields excludedFields :
  List.NoDup currentFields -> List.NoDup newFields ->
  List.NoDup (combineFields currentFields newFields excludedFields).
Proof.
  intros Hc Hn. rewrite combineFields_app. apply List.NoDup_app.
  - exact Hc.
  - now apply List.NoDup_filter.
  - intros a Ha Hf. apply List.filter_In in Hf as [_ Hf].
    apply isOther_true in Hf. tauto.
Qed.

(** X21: combining the same new fields a second time adds nothing. *)
Theorem combineFields_idempotent currentFields newFields excludedFields :
  combineFields (combineFields currentFields newFields excludedFields)
                newFields excludedFields
  = combineFields currentFields newFields excludedFields.
Proof.
  rewrite (combineFields_app (combineFields _ _ _)).
  replace (List.filter _ newFields) with (@nil string);
    [now rewrite app_nil_r|].
  symmetry. apply filter_nil_iff. intros x Hx.
  apply not_true_iff_false. rewrite isOther_true. intros [Hin Hex].
  apply Hin. rewrite combineFields_app, in_app_iff, List.filter_In, isOther_true.
  destruct (in_dec string_dec x currentFields); [now left | now right].
Qed.

Lemma collectFields_flat_map (groups : list Group) :
  collectFields groups = flat_map firstKeyFields groups.
Proof.
  unfold collectFields.
  enough (forall init,
            fold_left (fun all group => (all ++ firstKeyFields group)%list)
                      groups init
            = (init ++ flat_map firstKeyFields groups)%list) as H
    by apply (H []).
  induction groups as [|g gs IH]; intros init; simpl.
  - now rewrite app_nil_r.
  - now rewrite IH, <- app_assoc.
Qed.

Lemma getProperty_setProperty (group : Group) (key : string) (value : list string) :
  getProperty (setProperty group key value) key = Some value.
Proof.
  induction group as [|[k v] rest IH]; simpl.
  - now rewrite String.eqb_refl.
  - destruct (String.eqb k key) eqn:E; simpl; now rewrite E.
Qed.



Lemma filter_cons_inv {A : Type} (f : A -> bool) (l : list A) (x : A) (xs : list A) :
  List.filter f l = x :: xs -> In x l /\ f x = true.
Proof.
  intros H. apply List.filter_In. rewrite H. now left.
Qed.

(** X22: [combineFieldGroups] throws exactly when some new field is
    neither collected from the groups nor excluded, and there is no first
    group or the first group has no [default] list. *)
Theorem combineFieldGroups_throws_iff (currentGroups : list Group)
    newFields excludedFields :
  (exists err, combineFieldGroups currentGroups newFields excludedFields = inr err)
  <-> (exists field : string,
         In field newFields
         /\ ~ In field (collectFields currentGroups)
         /\ ~ In field excludedFields)
      /\ (currentGroups = []
          \/ exists first rest,
               currentGroups = first :: rest
               /\ getProperty first "default" = None).
Proof.
  unfold combineFieldGroups.
  destruct (List.filter _ newFields) as [|x xs] eqn:Hf; simpl.
  - split; [intros [err H]; discriminate|].
    intros [(field & Hn & Hc & He) _]. exfalso.
    pose proof (proj1 (filter_nil_iff _ _) Hf field Hn) as Hfalse.
    apply not_true_iff_false in Hfalse. apply Hfalse.
    now apply isOther_true.
  - apply filter_cons_inv in Hf as [Hn Hx]. apply isOther_true in Hx.
    assert (Hex : exists field, In field newFields
                   /\ ~ In field (collectFields currentGroups)
                   /\ ~ In field excludedFields) by (exists x; tauto).
    destruct currentGroups as [|first rest].
    + split; [intros _; split; [exact Hex | now left] | eauto].
    + destruct (getProperty first "default") as [fields|] eqn:Hd.
      * split; [intros [err H]; discriminate|].
        intros [_ [H | (f' & r' & [= <- <-] & H)]]; congruence.
      * split; [|eauto]. intros _. split; [exact Hex|]. right. eauto.
Qed.

Lemma combineFieldGroups_no_other (currentGroups : list Group)
    newFields excludedFields :
  List.filter (isOther (collectFields currentGroups) excludedFields) newFields = [] ->
  combineFieldGroups currentGroups newFields excludedFields = inl currentGroups.
Proof. intros H. unfold combineFieldGroups. now rewrite H. Qed.

(** X23: when no new field is left after the collected and the excluded
    ones are taken out, the groups come back as they are; this holds also
    for an empty array of groups, which then does not throw. *)
Theorem combineFieldGroups_nothing_new (currentGroups : list Group)
    newFields excludedFields :
  (forall field, In field newFields ->
     In field (collectFields currentGroups) \/ In field excludedFields) ->
  combineFieldGroups currentGroups newFields excludedFields = inl currentGroups.
Proof.
  intros H. apply combineFieldGroups_no_other.
  apply filter_nil_iff. intros x Hx.
  apply not_true_iff_false. rewrite isOther_true. specialize (H x Hx). tauto.
Qed.


(** X25: the [default] list of the first group only grows at its end: the
    fields added come in the order they have among the new fields, and each
    of them was neither collected from the groups nor excluded. *)
Theorem combineFieldGroups_default_grows (currentGroups groups' : list Group)
    newFields excludedFields (fields : list string) :
  combineFieldGroups currentGroups newFields excludedFields = inl groups' ->
  getProperty (hd [] currentGroups) "default" = Some fields ->
  exists added : list string,
    getProperty (hd [] groups') "default" = Some (fields ++ added)%list
    /\ sublist added newFields
    /\ (forall field, In field added ->
          ~ In field (collectFields currentGroups)
          /\ ~ In field excludedFields).
Proof.
  unfold combineFieldGroups. intros H Hd.
  remember (List.filter (isOther (collectFields currentGroups) excludedFields)
                        newFields) as other eqn:Hother.
  exists other. split; [|split].
  - destruct other as [|x xs]; simpl in H.
    + injection H as <-. now rewrite app_nil_r.
    + destruct currentGroups as [|first rest]; [discriminate|]. simpl in Hd.
      rewrite Hd in H. injection H as <-. apply getProperty_setProperty.
  - subst other. apply filter_sublist.
  - subst other. intros field Hin. apply List.filter_In in Hin as [_ Hin].
    now apply isOther_true.
Qed.

(** X26: when [default] is the first key of the first group, the call
    returns, and a second call with the same new and excluded fields on
    the groups it returned changes nothing further. *)
Theorem combineFieldGroups_idempotent (fields : list string) (props : Group)
    (rest : list Group) newFields excludedFields :
  let currentGroups := (("default", fields) :: props) :: rest in
  exists groups' : list Group,
    combineFieldGroups currentGroups newFields excludedFields = inl groups'
    /\ combineFieldGroups groups' newFields excludedFields = inl groups'.
Proof.
  intros currentGroups.
  set (other := List.filter (isOther (collectFields currentGroups) excludedFields)
                            newFields).
  exists ((("default", (fields ++ other)%list) :: props) :: rest).
  assert (Hfirst : combineFieldGroups currentGroups newFields excludedFields
                   = inl ((("default", (fields ++ other)%list) :: props) :: rest)).
  { unfold combineFieldGroups. fold other.
    destruct other as [|x xs]; simpl; [now rewrite app_nil_r | reflexivity]. }
  split; [exact Hfirst|].
  apply combineFieldGroups_no_other. apply filter_nil_iff. intros x Hx.
  apply not_true_iff_false. rewrite isOther_true. intros [Hc He].
  apply Hc. rewrite collectFields_flat_map. simpl.
  rewrite !in_app_iff. left. right. apply List.filter_In. split; [exact Hx|].
  apply isOther_true. split; [|exact He].
  intros Hold. apply Hc. rewrite collectFields_flat_map. simpl.
  unfold currentGroups in Hold. rewrite collectFields_flat_map in Hold.
  simpl in Hold. rewrite !in_app_iff in *. tauto.
Qed.

End FieldLists.

(** ** The further properties at sample states *)

Lemma initializeCache_reads_legacy_key_only_witness :
  initializeCache samples.unlimitedBackend (more_samples.legacyStorage 50)
  = initializeCache samples.unlimitedBackend (more_samples.bothRecordsStorage 50).
Proof.
  apply initializeCache_reads_legacy_key_only.
  - reflexivity.
  - vm_compute. reflexivity.
Defined.

Lemma initializeCache_restores_legacy_size_witness :
  initializeCache samples.unlimitedBackend (more_samples.legacyStorage (-3))
  = lm_ConvertCacheToLRU samples.unlimitedBackend (-3).
Proof.
  apply (initializeCache_restores_legacy_size samples.unlimitedBackend
           (more_samples.legacyStorage (-3)) (samples.cacheSizeRecord (-3))
           {| ccs_Size := -3 |}).
  - reflexivity.
  - vm_compute. reflexivity.
  - reflexivity.
Defined.

Lemma initializeCache_decode_error_witness :
  initializeCache samples.unlimitedBackend more_samples.garbledStorage
  = (samples.unlimitedBackend, Some (errors_New "json: invalid document")).
Proof.
  apply (initializeCache_decode_error samples.unlimitedBackend
           more_samples.garbledStorage JMalformed).
  - reflexivity.
  - vm_compute. reflexivity.
  - reflexivity.
Defined.

Lemma write_storage_frame_witness :
  let s' := ReqStorage (snd (fst
              (pathCacheConfigWrite samples.quote samples.unlimitedBackend
                 samples.emptyRequest (samples.writeRequest "lru" 50)))) in
  data s' !! "policy/my-key" = data (ReqStorage samples.emptyRequest) !! "policy/my-key"
  /\ getErr s' = getErr (ReqStorage samples.emptyRequest)
  /\ putErr s' = putErr (ReqStorage samples.emptyRequest).
Proof.
  apply (write_storage_frame samples.quote samples.unlimitedBackend
           samples.emptyRequest (samples.writeRequest "lru" 50) "policy/my-key").
  discriminate.
Defined.

Lemma write_success_means_stored_witness :
  (fst (pathCacheConfigWrite samples.quote samples.unlimitedBackend
          samples.emptyRequest (samples.writeRequest "lru" 50))
   = (samples.unlimitedBackend, samples.emptyRequest)
   /\ GetCacheType (lm samples.unlimitedBackend)
      = cacheTypeOf (Get_string (samples.writeRequest "lru" 50) "cache-type")
   /\ GetCacheSize (lm samples.unlimitedBackend)
      = Get_int (samples.writeRequest "lru" 50) "cache-size")
  \/ data (ReqStorage (snd (fst
             (pathCacheConfigWrite samples.quote samples.unlimitedBackend
                samples.emptyRequest (samples.writeRequest "lru" 50)))))
       !! "config/cache-type"
     = Some (samples.cacheTypeRecord
               (cacheTypeOf (Get_string (samples.writeRequest "lru" 50) "cache-type"))
               (Get_int (samples.writeRequest "lru" 50) "cache-size")).
Proof.
  apply (write_success_means_stored samples.quote samples.unlimitedBackend
           samples.emptyRequest (samples.writeRequest "lru" 50)).
  vm_compute. reflexivity.
Defined.

Lemma write_response_only_on_rejection_witness :
  snd (snd (pathCacheConfigWrite samples.quote samples.unlimitedBackend
              samples.emptyRequest (samples.writeRequestNoSize "lru")))
  = Some ErrInvalidRequest
  /\ fst (pathCacheConfigWrite samples.quote samples.unlimitedBackend
            samples.emptyRequest (samples.writeRequestNoSize "lru"))
     = (samples.unlimitedBackend, samples.emptyRequest)
  /\ (cacheTypeOf (Get_string (samples.writeRequestNoSize "lru") "cache-type")
      = NotImplemented
      \/ (cacheTypeOf (Get_string (samples.writeRequestNoSize "lru") "cache-type") = LRU
          /\ Get_int (samples.writeRequestNoSize "lru") "cache-size" <= 0)).
Proof.
  apply (write_response_only_on_rejection samples.quote samples.unlimitedBackend
           samples.emptyRequest (samples.writeRequestNoSize "lru")
           (ErrorResponse
              "for lru cache-type, cache-size must be specified and be greater than zero")).
  vm_compute. reflexivity.
Defined.

Lemma write_lru_converts_then_puts_witness :
  pathCacheConfigWrite samples.quote samples.unlimitedBackend
    samples.emptyRequest (samples.writeRequest "lru" 50)
  = ({| lm := {| cache := BoundedLRU 50 [] |};
        logger := samples.debugLogger;
        lmCalls := [CallConvertCacheToLRU 50] |},
     {| ReqStorage :=
          {| data := {[ "config/cache-type" := samples.cacheTypeRecord LRU 50 ]};
             getErr := getErr (ReqStorage samples.emptyRequest);
             putErr := putErr (ReqStorage samples.emptyRequest);
             putLog := [{| Key := "config/cache-type";
                           Value := samples.cacheTypeRecord LRU 50 |}] |} |},
     (None, None)).
Proof.
  refine (write_lru_converts_then_puts samples.quote samples.unlimitedBackend
            samples.emptyRequest (samples.writeRequest "lru" 50)
            {| cache := BoundedLRU 50 [] |} _ _ _ _).
  - reflexivity.
  - vm_compute. reflexivity.
  - vm_compute. intros [H _]. discriminate H.
  - reflexivity.
Defined.

Lemma write_failed_put_keeps_conversion_witness :
  let r := pathCacheConfigWrite samples.quote (samples.lruBackend 50)
             (more_samples.readOnlyRequest (errors_New "read-only storage"))
             (samples.writeRequest "unlimited" 0) in
  snd r = (None, Some (errors_New "read-only storage"))
  /\ data (ReqStorage (snd (fst r)))
     = data (ReqStorage (more_samples.readOnlyRequest (errors_New "read-only storage")))
  /\ lm (fst (fst r)) = ConvertCacheToSyncmap (lm (samples.lruBackend 50)).
Proof.
  apply (write_failed_put_keeps_conversion samples.quote (samples.lruBackend 50)
           (more_samples.readOnlyRequest (errors_New "read-only storage"))
           (samples.writeRequest "unlimited" 0)).
  - reflexivity.
  - vm_compute. intros [H _]. discriminate H.
  - reflexivity.
Defined.

Lemma write_lru_twice_witness :
  let after := fst (pathCacheConfigWrite samples.quote samples.unlimitedBackend
                      samples.emptyRequest (samples.writeRequest "lru" 50)) in
  pathCacheConfigWrite samples.quote (fst after) (snd after)
    (samples.writeRequest "lru" 50)
  = (fst after, snd after, (None, None)).
Proof.
  apply (write_lru_twice samples.quote samples.unlimitedBackend
           samples.emptyRequest (samples.writeRequest "lru" 50)).
  - reflexivity.
  - vm_compute. reflexivity.
  - exact Manager_PositiveCapacityConverts.
Defined.

Lemma Factory_without_entry_witness :
  Factory more_samples.newManager more_samples.setupOk more_samples.emptyConfig
  = (Some {| lm := ConvertCacheToSyncmap (more_samples.newManager true);
             logger := samples.debugLogger;
             lmCalls := [CallConvertCacheToSyncmap] |},
     None).
Proof.
  apply (Factory_without_entry more_samples.newManager more_samples.setupOk
           more_samples.emptyConfig samples.debugLogger).
  - reflexivity.
  - reflexivity.
Defined.

Lemma combineFields_NoDup_witness :
  List.NoDup (openapi_to_attrs.combineFields
                ["name"; "type"] ["type"; "ttl"; "token"] ["token"]).
Proof.
  apply combineFields_NoDup.
  - repeat constructor; simpl; intuition discriminate.
  - repeat constructor; simpl; intuition discriminate.
Defined.

Lemma combineFieldGroups_nothing_new_witness :
  openapi_to_attrs.combineFieldGroups more_samples.twoGroups
    ["name"; "ttl"; "token"] ["token"]
  = inl more_samples.twoGroups.
Proof.
  apply combineFieldGroups_nothing_new.
  intros field [<- | [<- | [<- | []]]]; simpl; auto.
Defined.


Lemma combineFieldGroups_default_grows_witness :
  exists added : list string,
    openapi_to_attrs.getProperty
      (hd [] [ [("default", ["name"; "type"; "token"])]; [("Options", ["ttl"])] ])
      "default"
    = Some (["name"; "type"] ++ added)%list
    /\ sublist added ["ttl"; "token"]
    /\ (forall field : string, In field added ->
          ~ In field (openapi_to_attrs.collectFields more_samples.twoGroups)
          /\ ~ In field []).
Proof.
  apply (combineFieldGroups_default_grows more_samples.twoGroups
           [ [("default", ["name"; "type"; "token"])]; [("Options", ["ttl"])] ]
           ["ttl"; "token"] [] ["name"; "type"]).
  - reflexivity.
  - reflexivity.
Defined.
